(** * The vocabulary matching game of [flask_vocab.py]

    The Flask application serves a word puzzle: [index] starts a puzzle by
    storing a target count, a jumble and an empty list of matches in the
    session, and [check] judges one submitted word against the vocabulary,
    the jumble and the matches found so far.

    The handlers of [src/vocab/flask_vocab.py] are embedded from the source.
    The three modules the application imports ([src.letterbag], [src.vocab],
    [src.jumble]) are not among the sources; each is modelled from the
    specification, in a module of its own, and the handlers take them as
    parameters. *)

From Stdlib Require Import ZArith Lia Ascii String List Permutation.
From stdpp Require Import base decidable option list gmap strings.

Local Open Scope string_scope.
Local Open Scope list_scope.
Local Open Scope Z_scope.

(** ** Python values the handlers see *)

Module Py.

(** The exceptions that occur in the application and in the modelled
    modules.  [InvalidArgument] and [LoadError] are the specification's names
    for the failures of generation and of loading. *)
Inductive exn : Type :=
| KeyError (key : string)
| ValueError
| TypeError
| AssertionError
| InvalidArgument
| LoadError.

(** A call either returns a value or raises. *)
Inductive result (A : Type) : Type :=
| Ok (a : A)
| Raise (e : exn).

Arguments Ok {A} a.
Arguments Raise {A} e.

Definition is_ok {A} (r : result A) : bool :=
  match r with Ok _ => true | Raise _ => false end.

(** The characters of a Python [str], in order. *)
Definition chars (s : string) : list ascii := list_ascii_of_string s.

(** [x in xs] on a list of strings. *)
Definition py_in (x : string) (xs : list string) : bool :=
  bool_decide (x ∈ xs).

(** Truth value of an [int] or [None]: [not v] is [negb (truthy v)]. *)
Definition truthy (v : option Z) : bool :=
  match v with
  | None => false
  | Some z => negb (z =? 0)
  end.

End Py.

Import Py.

(** ** Letter bags *)

Module LetterBag.

(** Modelled from the spec: the class [LetterBag] of [src/letterbag.py] is
    missing from the sources.  The specification (3, 4.1) describes it as a
    mapping from character to count built from a string, where an absent
    character counts zero, with a containment query that compares, for each
    character of the candidate, its count in the candidate with its count in
    the bag. *)
Definition count (bag : gmap ascii nat) (c : ascii) : nat :=
  default 0%nat (bag !! c).

Definition add_letter (c : ascii) (bag : gmap ascii nat) : gmap ascii nat :=
  <[c := S (count bag c)]> bag.

Fixpoint NewLetterMultiset (s : string) : gmap ascii nat :=
  match s with
  | EmptyString => ∅
  | String c rest => add_letter c (NewLetterMultiset rest)
  end.

Definition contains (bag : gmap ascii nat) (candidate : string) : bool :=
  let need := NewLetterMultiset candidate in
  forallb (fun c => (count need c <=? count bag c)%nat) (chars candidate).

(** The number of occurrences of a character in a string, counted on the
    string itself: the reference the bag is compared with. *)
Definition occurrences (c : ascii) (s : string) : nat :=
  count_occ ascii_dec (chars s) c.

Lemma count_empty c : count ∅ c = 0%nat.
Proof. unfold count. by rewrite lookup_empty. Qed.

Lemma count_add_letter_same c bag :
  count (add_letter c bag) c = S (count bag c).
Proof. unfold count at 1, add_letter. by rewrite lookup_insert_eq. Qed.

Lemma count_add_letter_other c d bag :
  c ≠ d -> count (add_letter c bag) d = count bag d.
Proof.
  intros Hne. unfold count at 1, add_letter.
  by rewrite lookup_insert_ne.
Qed.

(** The data-model invariant: the bag of [s] counts every character as often
    as it occurs in [s]. *)
Lemma count_NewLetterMultiset (s : string) (c : ascii) :
  count (NewLetterMultiset s) c = occurrences c s.
Proof.
  unfold occurrences, chars.
  induction s as [|d rest IH]; simpl.
  - apply count_empty.
  - destruct (ascii_dec d c) as [->|Hne].
    + by rewrite count_add_letter_same, IH.
    + by rewrite count_add_letter_other.
Qed.

(** A character the source string lacks has no key in the bag, and counts
    zero all the same. *)
Lemma lookup_NewLetterMultiset_absent (s : string) (c : ascii) :
  ~ In c (chars s) -> NewLetterMultiset s !! c = None.
Proof.
  unfold chars. induction s as [|d rest IH]; simpl; intros Hnot.
  - apply lookup_empty.
  - unfold add_letter. rewrite lookup_insert_ne by tauto. apply IH. tauto.
Qed.

Lemma contains_spec (s candidate : string) :
  contains (NewLetterMultiset s) candidate = true <->
  forall c, In c (chars candidate) ->
            (occurrences c candidate <= occurrences c s)%nat.
Proof.
  unfold contains. cbv zeta. rewrite forallb_forall.
  split; intros H c Hc; specialize (H c Hc).
  - rewrite !count_NewLetterMultiset in H. by apply Nat.leb_le.
  - rewrite !count_NewLetterMultiset. by apply Nat.leb_le.
Qed.

(** C3.  For every source string [s] and every candidate,
    [LetterMultiset(s).contains(candidate)] is true exactly when every
    character of the candidate occurs in the candidate at most as often as in
    [s]; the empty candidate is contained, and a candidate with a character
    that [s] lacks is not. *)
Theorem contains_is_multiset_inclusion (s candidate : string) :
  (contains (NewLetterMultiset s) candidate = true <->
   forall c, In c (chars candidate) ->
             (occurrences c candidate <= occurrences c s)%nat)
  /\ contains (NewLetterMultiset s) "" = true
  /\ (forall c, In c (chars candidate) -> ~ In c (chars s) ->
                contains (NewLetterMultiset s) candidate = false).
Proof.
  split; [apply contains_spec|]. split; [reflexivity|].
  intros c Hin Hnot.
  destruct (contains (NewLetterMultiset s) candidate) eqn:E; [|done].
  pose proof (proj1 (contains_spec s candidate) E c Hin) as Hle.
  unfold occurrences in Hle.
  rewrite (proj1 (count_occ_not_In ascii_dec (chars s) c) Hnot) in Hle.
  pose proof (proj1 (count_occ_In ascii_dec (chars candidate) c) Hin). lia.
Qed.

End LetterBag.

(** ** The vocabulary *)

Module Vocab.

Section Load.

(** The normalisation rule fixed at load time (trimming and case policy) and
    the marker that starts a comment line; the specification leaves both to
    the implementation, so the model takes them as given. *)
Variable normalize : string -> string.
Variable comment_prefix : string.

(** Modelled from the spec: the class [Vocab] of [src/vocab.py] is missing
    from the sources.  The specification (3, 4.2, 6) describes an ordered
    sequence of distinct normalised words, read from a source with one word
    per line where blank lines and comment lines are skipped; loading fails
    with a LoadError when the source is unreadable or holds no word. *)
Record Vocabulary : Type := { words : list string }.

Definition is_word (line : string) : bool :=
  let w := normalize line in
  negb (String.eqb w "") && negb (String.prefix comment_prefix w).

(** [source] is the sequence of lines, [None] when it cannot be read. *)
Definition LoadVocabulary (source : option (list string)) : result Vocabulary :=
  match source with
  | None => Raise LoadError
  | Some lines =>
      match remove_dups (map normalize (List.filter is_word lines)) with
      | [] => Raise LoadError
      | ws => Ok {| words := ws |}
      end
  end.

Definition has (v : Vocabulary) (word : string) : bool :=
  py_in (normalize word) (words v).

Definition as_ordered_list (v : Vocabulary) : list string := words v.

Lemma LoadVocabulary_unreadable : LoadVocabulary None = Raise LoadError.
Proof. reflexivity. Qed.

Lemma filter_none {A} (p : A -> bool) (l : list A) :
  (forall x, In x l -> p x = false) -> List.filter p l = [].
Proof.
  induction l as [|x l IH]; simpl; intros H; [reflexivity|].
  rewrite (H x) by auto. apply IH. auto.
Qed.

Lemma LoadVocabulary_no_word (lines : list string) :
  (forall l, In l lines -> is_word l = false) ->
  LoadVocabulary (Some lines) = Raise LoadError.
Proof.
  intros H. unfold LoadVocabulary. by rewrite filter_none.
Qed.

Lemma LoadVocabulary_some_word (lines : list string) (l : string) :
  In l lines -> is_word l = true ->
  exists v, LoadVocabulary (Some lines) = Ok v
            /\ NoDup (words v)
            /\ normalize l ∈ words v
            /\ (forall w, w ∈ words v ->
                  exists l', In l' lines /\ is_word l' = true
                             /\ w = normalize l').
Proof.
  intros Hin Hw. unfold LoadVocabulary.
  set (ws := remove_dups (map normalize (List.filter is_word lines))).
  assert (Hmem : normalize l ∈ ws).
  { apply elem_of_remove_dups, list_elem_of_In, in_map, filter_In. auto. }
  assert (Hsrc : forall w, w ∈ ws ->
            exists l', In l' lines /\ is_word l' = true /\ w = normalize l').
  { intros w Hws. apply elem_of_remove_dups, list_elem_of_In, in_map_iff in Hws.
    destruct Hws as (l' & <- & Hl'). apply filter_In in Hl'.
    exists l'. tauto. }
  assert (Hnd : NoDup ws) by apply NoDup_remove_dups.
  destruct ws as [|w ws'] eqn:E.
  - by apply not_elem_of_nil in Hmem.
  - exists {| words := w :: ws' |}. simpl. auto.
Qed.

Lemma has_loaded (v : Vocabulary) (word : string) :
  has v word = true <-> normalize word ∈ words v.
Proof. unfold has, py_in. apply bool_decide_eq_true. Qed.

End Load.

End Vocab.

(** ** The jumble generator *)

Module Jumble.

Section Generator.

(** The pseudo-random source: a generator is built from a seed, and a draw
    yields a number together with the generator's next state.  The
    specification fixes no particular generator, so the model works with any. *)
Variable rng : Type.
Variable seeded : Z -> rng.
Variable draw : rng -> nat -> nat * rng.

(** [sample k pool g] takes [k] elements at distinct positions of [pool], each
    position drawn from what is left of the pool. *)
Fixpoint sample {A} (k : nat) (pool : list A) (g : rng) : list A * rng :=
  match k with
  | O => ([], g)
  | S k' =>
      let '(n, g1) := draw g (length pool) in
      let i := (n mod length pool)%nat in
      match pool !! i with
      | None => ([], g1)
      | Some x =>
          let '(xs, g2) := sample k' (delete i pool) g1 in
          (x :: xs, g2)
      end
  end.

(** A random permutation: every element is sampled. *)
Definition shuffle {A} (l : list A) (g : rng) : list A * rng :=
  sample (length l) l g.

(** Modelled from the spec: the function [jumbled] of [src/jumble.py] is
    missing from the sources.  The specification (4.3, 9) describes it so:
    the target count must lie between 1 and the size of the vocabulary,
    otherwise the call fails with InvalidArgument; the generator is built from
    the seed when one is supplied and from a time source otherwise; it first
    draws [target_count] distinct words, then permutes the concatenation of
    their letters with the same generator. *)
Definition GenerateJumble (vocabulary : list string) (target_count : Z)
    (seed : option Z) (now : Z) : result string :=
  if (target_count <? 1) || (Z.of_nat (length vocabulary) <? target_count)
  then Raise InvalidArgument
  else
    let g := seeded (match seed with Some r => r | None => now end) in
    let '(chosen, g1) := sample (Z.to_nat target_count) vocabulary g in
    let letters := concat (map chars chosen) in
    let '(permuted, _) := shuffle letters g1 in
    Ok (string_of_list_ascii permuted).

(** The words a call chose, kept for the statements below. *)
Definition chosen_words (vocabulary : list string) (target_count : Z)
    (seed : option Z) (now : Z) : list string :=
  fst (sample (Z.to_nat target_count) vocabulary
         (seeded (match seed with Some r => r | None => now end))).

Lemma sample_splits {A} (k : nat) : forall (pool : list A) (g : rng),
  (k <= length pool)%nat ->
  length (fst (sample k pool g)) = k
  /\ exists rest, pool ≡ₚ fst (sample k pool g) ++ rest.
Proof.
  induction k as [|k IH]; intros pool g Hk; simpl.
  - split; [reflexivity|]. by exists pool.
  - destruct (draw g (length pool)) as [n g1].
    assert (Hi : (n mod length pool < length pool)%nat)
      by (apply Nat.mod_upper_bound; lia).
    destruct (lookup_lt_is_Some_2 pool _ Hi) as [x Hx]. rewrite Hx.
    destruct (IH (delete (n mod length pool)%nat pool) g1) as [Hlen [rest Hrest]].
    { rewrite length_delete by eauto. lia. }
    destruct (sample k (delete (n mod length pool)%nat pool) g1) as [xs g2].
    simpl in *. split; [by rewrite Hlen|].
    exists rest. rewrite (delete_Permutation pool _ x Hx). by rewrite Hrest.
Qed.

Lemma shuffle_permutes {A} (l : list A) (g : rng) :
  l ≡ₚ fst (shuffle l g).
Proof.
  unfold shuffle.
  destruct (sample_splits (length l) l g) as [Hlen [rest Hrest]]; [lia|].
  pose proof (Permutation_length Hrest) as Hl.
  rewrite length_app, Hlen in Hl.
  destruct rest; [|simpl in Hl; lia].
  by rewrite app_nil_r in Hrest.
Qed.

Lemma occurrences_concat (c : ascii) (w : string) (ws : list string) :
  In w ws ->
  (count_occ ascii_dec (chars w) c
   <= count_occ ascii_dec (concat (map chars ws)) c)%nat.
Proof.
  induction ws as [|v ws IH]; simpl; intros Hin; [done|].
  rewrite count_occ_app. destruct Hin as [->|Hin]; [lia|].
  specialize (IH Hin). lia.
Qed.

(** What a call in range returns: the permuted letters of the chosen words. *)
Lemma GenerateJumble_in_range (vocabulary : list string) (target_count : Z)
    (seed : option Z) (now : Z) :
  1 <= target_count <= Z.of_nat (length vocabulary) ->
  exists J, GenerateJumble vocabulary target_count seed now = Ok J
            /\ chars J ≡ₚ
               concat (map chars (chosen_words vocabulary target_count seed now)).
Proof.
  intros Hk. unfold GenerateJumble, chosen_words.
  destruct (Z.ltb_spec target_count 1); [lia|].
  destruct (Z.ltb_spec (Z.of_nat (length vocabulary)) target_count); [lia|].
  simpl.
  destruct (sample (Z.to_nat target_count) vocabulary _) as [chosen g1].
  simpl.
  pose proof (shuffle_permutes (concat (map chars chosen)) g1) as Hp.
  destruct (shuffle (concat (map chars chosen)) g1) as [permuted g2].
  simpl in Hp. eexists. split; [reflexivity|].
  unfold chars at 1. by rewrite list_ascii_of_string_of_list_ascii.
Qed.

(** C2.  For a vocabulary of distinct words, a target count [k] between 1 and
    the size of the vocabulary and any seed, the generated jumble [J] is
    returned and there are [k] distinct vocabulary words that
    [LetterMultiset(J).contains] accepts. *)
Theorem GenerateJumble_spells_chosen_words (V : list string) (k : Z)
    (seed : option Z) (now : Z) :
  NoDup V ->
  1 <= k <= Z.of_nat (length V) ->
  exists (J : string) (ws : list string),
    GenerateJumble V k seed now = Ok J
    /\ Z.of_nat (length ws) = k
    /\ NoDup ws
    /\ forall w, w ∈ ws ->
         w ∈ V
         /\ LetterBag.contains (LetterBag.NewLetterMultiset J) w = true.
Proof.
  intros Hnd Hk.
  destruct (GenerateJumble_in_range V k seed now Hk) as [J [HJ Hperm]].
  exists J, (chosen_words V k seed now). split; [exact HJ|].
  unfold chosen_words in *.
  destruct (sample_splits (Z.to_nat k) V
              (seeded (match seed with Some r => r | None => now end)))
    as [Hlen [rest Hrest]]; [lia|].
  set (ws := fst (sample (Z.to_nat k) V _)) in *.
  split; [lia|]. split.
  { rewrite Hrest in Hnd. by apply NoDup_app in Hnd as [? _]. }
  intros w Hw. split.
  { rewrite Hrest. apply elem_of_app. by left. }
  apply LetterBag.contains_spec. intros c _.
  unfold LetterBag.occurrences.
  rewrite (proj1 (Permutation_count_occ ascii_dec (chars J)
                    (concat (map chars ws))) Hperm c).
  apply occurrences_concat. by apply list_elem_of_In.
Qed.

(** C5.  A target count below 1 or above the size of the vocabulary makes
    the generator fail with InvalidArgument, for every vocabulary, seed and
    time; so do the counts 0 and [|V| + 1]. *)
Theorem GenerateJumble_rejects_out_of_range (V : list string) (k : Z)
    (seed : option Z) (now : Z) :
  (k < 1 \/ Z.of_nat (length V) < k ->
   GenerateJumble V k seed now = Raise InvalidArgument)
  /\ GenerateJumble V 0 seed now = Raise InvalidArgument
  /\ GenerateJumble V (Z.of_nat (length V) + 1) seed now = Raise InvalidArgument.
Proof.
  assert (H : forall n, n < 1 \/ Z.of_nat (length V) < n ->
            GenerateJumble V n seed now = Raise InvalidArgument).
  { intros n Hn. unfold GenerateJumble.
    destruct (Z.ltb_spec n 1); [reflexivity|].
    destruct (Z.ltb_spec (Z.of_nat (length V)) n); [reflexivity|]. lia. }
  split; [apply H|]. split; apply H; lia.
Qed.

End Generator.

End Jumble.

(** ** The application: [src/vocab/flask_vocab.py] *)

Module FlaskVocab.

(** A value of the configuration, as [CONFIG.SEED] may hold it. *)
Inductive value : Type :=
| VNone
| VInt (z : Z)
| VStr (s : string).

(** The fields of [CONFIG] the handlers read. *)
Record config : Type := {
  VOCAB : string;
  SEED_setting : value;
  SUCCESS_AT_COUNT : Z
}.

(** What the application imports and does not define: the classes [Vocab] and
    [LetterBag], the function [jumbled], and the builtin [int].  [jumbled]
    reads a time source when it is given no seed; the reading is its last
    argument. *)
Class Imports : Type := {
  Vocab : Type;
  Vocab_init : string -> result Vocab;
  Vocab_as_list : Vocab -> list string;
  Vocab_has : Vocab -> string -> bool;
  LetterBag_contains : string -> string -> bool;
  jumbled : list string -> Z -> option Z -> Z -> result string;
  int : value -> result Z
}.

(** [flask.session]: the three keys the handlers use, each present or not. *)
Record session : Type := {
  target_count : option Z;
  jumble : option string;
  matches : option (list string)
}.

Definition new_session : session :=
  {| target_count := None; jumble := None; matches := None |}.

(** A call of [jumbled], with the arguments it was given. *)
Record jumbled_call : Type := {
  call_words : list string;
  call_n : Z;
  call_seed : option Z
}.

(** The JSON reply of [check], with the [return] statement that produced it. *)
Inductive branch : Type :=
| Accept            (* line 100: a new match *)
| AlreadyFound      (* line 107: text in matches *)
| NotInVocabulary   (* line 112: not matched *)
| NotInJumble.      (* line 117: not in_jumble *)

Record reply : Type := {
  taken : branch;
  valid_word : bool;
  success_count : Z
}.

Inductive page : Type :=
| render_template (name : string).

Section App.

Context {I : Imports}.

(** The module's globals, one client's session, and the calls made to
    [jumbled] so far (kept to state what the generator was invoked with). *)
Record server : Type := {
  CONFIG : config;
  WORDS : Vocab;
  SEED : option Z;
  flask_session : session;
  calls : list jumbled_call
}.

(** Handlers run in a state monad over the server, with exceptions; the state
    reached when an exception is raised is kept. *)
Definition M (A : Type) : Type := server -> server * result A.

Definition ret {A} (a : A) : M A := fun s => (s, Ok a).

Definition raise {A} (e : exn) : M A := fun s => (s, Raise e).

Definition bind {A B} (m : M A) (k : A -> M B) : M B :=
  fun s =>
    match m s with
    | (s', Ok a) => k a s'
    | (s', Raise e) => (s', Raise e)
    end.

Notation "'let!' x ':=' m 'in' k" := (bind m (fun x => k))
  (at level 10, x name, m at level 100, k at level 200).
Notation "'do!' m 'in' k" := (bind m (fun _ => k))
  (at level 10, m at level 100, k at level 200).

Definition global {A} (field : server -> A) : M A :=
  fun s => (s, Ok (field s)).

Definition update_session (f : session -> session) : M unit :=
  fun s =>
    ({| CONFIG := CONFIG s; WORDS := WORDS s; SEED := SEED s;
        flask_session := f (flask_session s); calls := calls s |}, Ok tt).

(** [flask.session[key]] *)
Definition session_item {A} (key : string) (field : session -> option A) : M A :=
  fun s =>
    match field (flask_session s) with
    | Some v => (s, Ok v)
    | None => (s, Raise (KeyError key))
    end.

(** [flask.session.get(key, default)] *)
Definition session_get {A} (field : session -> option A) (default : A) : M A :=
  fun s =>
    match field (flask_session s) with
    | Some v => (s, Ok v)
    | None => (s, Ok default)
    end.

Definition set_target_count (n : Z) : M unit :=
  update_session (fun ss =>
    {| target_count := Some n; jumble := jumble ss; matches := matches ss |}).

Definition set_jumble (j : string) : M unit :=
  update_session (fun ss =>
    {| target_count := target_count ss; jumble := Some j; matches := matches ss |}).

Definition set_matches (ms : list string) : M unit :=
  update_session (fun ss =>
    {| target_count := target_count ss; jumble := jumble ss; matches := Some ms |}).

Definition assert (b : bool) : M unit :=
  if b then ret tt else raise AssertionError.

Definition call_jumbled (words : list string) (n : Z) (seed : option Z)
    (now : Z) : M string :=
  fun s =>
    ({| CONFIG := CONFIG s; WORDS := WORDS s; SEED := SEED s;
        flask_session := flask_session s;
        calls := calls s ++
                 [{| call_words := words; call_n := n; call_seed := seed |}] |},
     jumbled words n seed now).

(** Lines 33-38: the module's initialisation.  Only a ValueError of [int] is
    caught. *)
Definition startup (cfg : config) : result server :=
  match Vocab_init (VOCAB cfg) with
  | Raise e => Raise e
  | Ok words =>
      let serve (seed : option Z) :=
        Ok {| CONFIG := cfg; WORDS := words; SEED := seed;
              flask_session := new_session; calls := [] |} in
      match int (SEED_setting cfg) with
      | Ok z => serve (Some z)
      | Raise ValueError => serve None
      | Raise e => Raise e
      end
  end.

(** Line 53: [None if not SEED or SEED < 0 else SEED].  The comparison is
    reached only when [SEED] is truthy, hence an integer. *)
Definition seed_argument (SEED : option Z) : option Z :=
  if negb (truthy SEED) then None
  else
    match SEED with
    | Some z => if z <? 0 then None else Some z
    | None => None
    end.

(** Lines 47-59. *)
Definition index (now : Z) : M page :=
  let! words := global WORDS in
  let vocab := Vocab_as_list words in
  let! cfg := global CONFIG in
  do! set_target_count (Z.min (Z.of_nat (length vocab)) (SUCCESS_AT_COUNT cfg)) in
  let! n := session_item "target_count" target_count in
  let! seed := global SEED in
  let! j := call_jumbled vocab n (seed_argument seed) now in
  do! set_jumble j in
  do! set_matches [] in
  let! ms := session_item "matches" matches in
  do! assert (bool_decide (ms = [])) in
  let! n := session_item "target_count" target_count in
  do! assert (0 <? n) in
  ret (render_template "vocab.html").

(** Lines 77-124, for a request that carries the [text] argument. *)
Definition check (text : string) : M reply :=
  let! jumble := session_item "jumble" jumble in
  let! matches := session_get matches [] in
  let! words := global WORDS in
  let! cfg := global CONFIG in
  let in_jumble := LetterBag_contains jumble text in
  let matched := Vocab_has words text in
  let answer b v :=
    ret {| taken := b; valid_word := v;
           success_count := SUCCESS_AT_COUNT cfg |} in
  if matched && in_jumble && negb (py_in text matches) then
    do! set_matches (matches ++ [text]) in
    answer Accept true
  else if py_in text matches then
    answer AlreadyFound false
  else if negb matched then
    answer NotInVocabulary false
  else if negb in_jumble then
    answer NotInJumble false
  else
    raise AssertionError.

(** Lines 174-178: the handler for an exception a view did not catch.  Its
    assertion [assert not True] fails before the page is rendered. *)
Definition error_500 (e : exn) : M (page * Z) :=
  do! assert (negb true) in
  ret (render_template "500.html", 500).

(** The server after a request that produced no response: the session is a
    cookie written with the response, so the client keeps the session it
    sent; what the process holds (the globals, the calls made) stays. *)
Definition keep_cookie (s s' : server) : server :=
  {| CONFIG := CONFIG s'; WORDS := WORDS s'; SEED := SEED s';
     flask_session := flask_session s; calls := calls s' |}.

(** The server after a view has run from [s]: its session is saved when the
    view returned, or when it raised and the 500 handler returned a page. *)
Definition respond {A} (s : server) (run : server * result A) : server :=
  match run with
  | (s', Ok _) => s'
  | (s', Raise e) =>
      match error_500 e s' with
      | (s'', Ok _) => s''
      | (s'', Raise _) => keep_cookie s s''
      end
  end.

(** Requests of one client, served in order. *)
Inductive request : Type :=
| GetIndex (now : Z)
| GetCheck (text : string).

Definition handle (r : request) (s : server) : server :=
  match r with
  | GetIndex now => respond s (index now s)
  | GetCheck text => respond s (check text s)
  end.

Definition serve (rs : list request) (s : server) : server :=
  fold_left (fun s r => handle r s) rs s.

(** The matches found so far, as [check] reads them (line 91). *)
Definition found (s : server) : list string :=
  default [] (matches (flask_session s)).

(** The count [index] stores (lines 50-51). *)
Definition clamped_count (s : server) : Z :=
  Z.min (Z.of_nat (length (Vocab_as_list (WORDS s))))
        (SUCCESS_AT_COUNT (CONFIG s)).

Ltac run_handler :=
  unfold bind, global, session_item, session_get, set_target_count,
    set_jumble, set_matches, update_session, call_jumbled, assert, ret, raise;
  simpl.

(** [check] written out: what it returns for the three tests it makes. *)
Lemma check_cases (s : server) (text j : string) :
  jumble (flask_session s) = Some j ->
  check text s =
    let reply_of b v :=
      Ok {| taken := b; valid_word := v;
            success_count := SUCCESS_AT_COUNT (CONFIG s) |} in
    if Vocab_has (WORDS s) text && LetterBag_contains j text
       && negb (py_in text (found s))
    then
      ({| CONFIG := CONFIG s; WORDS := WORDS s; SEED := SEED s;
          flask_session :=
            {| target_count := target_count (flask_session s);
               jumble := jumble (flask_session s);
               matches := Some (found s ++ [text]) |};
          calls := calls s |}, reply_of Accept true)
    else if py_in text (found s) then (s, reply_of AlreadyFound false)
    else if negb (Vocab_has (WORDS s) text)
    then (s, reply_of NotInVocabulary false)
    else (s, reply_of NotInJumble false).
Proof.
  destruct s as [cfg words seed [n jm ms] cs]; simpl. intros ->.
  unfold check, found. run_handler.
  destruct ms as [ms|]; simpl;
    destruct (Vocab_has words text), (LetterBag_contains j text); simpl;
    try destruct (py_in text ms); reflexivity.
Qed.

Lemma check_without_jumble (s : server) (text : string) :
  jumble (flask_session s) = None ->
  check text s = (s, Raise (KeyError "jumble")).
Proof.
  destruct s as [cfg words seed [n jm ms] cs]; simpl. intros ->.
  reflexivity.
Qed.

Lemma py_in_true (x : string) (xs : list string) :
  py_in x xs = true <-> x ∈ xs.
Proof. apply bool_decide_eq_true. Qed.

Lemma py_in_false (x : string) (xs : list string) :
  py_in x xs = false <-> x ∉ xs.
Proof. apply bool_decide_eq_false. Qed.

(** C1.  With a jumble in the session, [check] accepts (replies
    [valid_word] true and appends the attempt to the matches) exactly when
    the attempt is a vocabulary word, can be spelled from the jumble and is
    not among the matches; otherwise it replies [valid_word] false, from the
    already-found branch when the attempt is among the matches, else from the
    not-a-word branch when it is no vocabulary word, else from the
    not-spellable branch. *)
Theorem check_accepts_exactly_new_spellable_words
    (s : server) (text j : string) :
  jumble (flask_session s) = Some j ->
  exists r : reply,
    snd (check text s) = Ok r
    /\ (taken r = Accept <->
          Vocab_has (WORDS s) text = true
          /\ LetterBag_contains j text = true
          /\ (text ∉ found s))
    /\ (taken r = Accept ->
          valid_word r = true
          /\ matches (flask_session (fst (check text s)))
             = Some (found s ++ [text]))
    /\ (taken r <> Accept -> valid_word r = false)
    /\ (taken r = AlreadyFound <-> text ∈ found s)
    /\ (taken r = NotInVocabulary <->
          (text ∉ found s) /\ Vocab_has (WORDS s) text = false)
    /\ (taken r = NotInJumble <->
          (text ∉ found s)
          /\ Vocab_has (WORDS s) text = true
          /\ LetterBag_contains j text = false).
Proof.
  intros Hj. rewrite (check_cases s text j Hj). cbv zeta.
  destruct (Vocab_has (WORDS s) text) eqn:Hm;
    destruct (LetterBag_contains j text) eqn:Hi;
    destruct (py_in text (found s)) eqn:Hf; simpl;
    (apply py_in_true in Hf || apply py_in_false in Hf);
    eexists; (split; [reflexivity|]); simpl;
    repeat split; intros; destruct_and?; done || congruence.
Qed.

(** The three rejecting branches send the same JSON: the reply tells the
    client that the attempt does not count, and not why. *)
Lemma check_rejections_reply_alike (s : server) (text : string) (r : reply) :
  snd (check text s) = Ok r -> taken r <> Accept ->
  valid_word r = false /\ success_count r = SUCCESS_AT_COUNT (CONFIG s).
Proof.
  destruct (jumble (flask_session s)) as [j|] eqn:Hj.
  - rewrite (check_cases s text j Hj). cbv zeta.
    destruct (Vocab_has (WORDS s) text), (LetterBag_contains j text),
      (py_in text (found s)); simpl; intros [= <-]; simpl; done.
  - rewrite (check_without_jumble s text Hj). simpl. discriminate.
Qed.

(** C6.  [check] never reaches the final [else] (it never raises
    AssertionError); with a jumble in the session it returns from one of the
    four outcome branches, and from one only. *)
Theorem check_assertion_unreachable (s : server) (text : string) :
  snd (check text s) <> Raise AssertionError
  /\ (forall j, jumble (flask_session s) = Some j ->
       exists b : branch,
         (exists r, snd (check text s) = Ok r /\ taken r = b)
         /\ forall b' r', snd (check text s) = Ok r' -> taken r' = b' ->
                          b' = b).
Proof.
  split.
  - destruct (jumble (flask_session s)) as [j|] eqn:Hj.
    + rewrite (check_cases s text j Hj). cbv zeta.
      destruct (Vocab_has (WORDS s) text), (LetterBag_contains j text),
        (py_in text (found s)); simpl; discriminate.
    + rewrite (check_without_jumble s text Hj). simpl. discriminate.
  - intros j Hj. rewrite (check_cases s text j Hj). cbv zeta.
    destruct (Vocab_has (WORDS s) text), (LetterBag_contains j text),
      (py_in text (found s)); simpl;
      eexists; (split; [eexists; split; reflexivity|]);
      intros b' r' [= <-] <-; reflexivity.
Qed.

(** C9.  Outside the accept branch [check] leaves the session (and the rest
    of the server) as it was, also when it raises; in the accept branch it
    appends the attempt to the matches and changes nothing else. *)
Theorem check_rejection_leaves_session (s : server) (text : string) :
  (forall r, snd (check text s) = Ok r -> taken r <> Accept ->
             fst (check text s) = s)
  /\ (forall e, snd (check text s) = Raise e -> fst (check text s) = s)
  /\ (forall r, snd (check text s) = Ok r -> taken r = Accept ->
         matches (flask_session (fst (check text s)))
         = Some (found s ++ [text])
         /\ jumble (flask_session (fst (check text s)))
            = jumble (flask_session s)
         /\ target_count (flask_session (fst (check text s)))
            = target_count (flask_session s)).
Proof.
  destruct (jumble (flask_session s)) as [j|] eqn:Hj.
  - rewrite (check_cases s text j Hj). cbv zeta.
    destruct (Vocab_has (WORDS s) text), (LetterBag_contains j text),
      (py_in text (found s)); simpl;
      repeat split; intros; simplify_eq; simpl in *;
      try congruence; try reflexivity.
  - rewrite (check_without_jumble s text Hj). simpl.
    repeat split; intros; simplify_eq; reflexivity.
Qed.

(** [index] written out: the session and the calls it leaves, by what
    [jumbled] returns. *)
Lemma index_cases (s : server) (now : Z) :
  index now s =
    let vocab := Vocab_as_list (WORDS s) in
    let n := clamped_count s in
    let seed := seed_argument (SEED s) in
    let after ss :=
      {| CONFIG := CONFIG s; WORDS := WORDS s; SEED := SEED s;
         flask_session := ss;
         calls := calls s ++
                  [{| call_words := vocab; call_n := n; call_seed := seed |}] |} in
    match jumbled vocab n seed now with
    | Raise e =>
        (after {| target_count := Some n;
                  jumble := jumble (flask_session s);
                  matches := matches (flask_session s) |}, Raise e)
    | Ok j =>
        (after {| target_count := Some n; jumble := Some j;
                  matches := Some [] |},
         if 0 <? n then Ok (render_template "vocab.html")
         else Raise AssertionError)
    end.
Proof.
  destruct s as [cfg words seed [n0 jm ms] cs].
  unfold index, clamped_count. run_handler.
  destruct (jumbled _ _ _ now) as [j|e]; simpl; [|reflexivity].
  destruct (0 <? _); reflexivity.
Qed.

(** C7, as the code has it.  [index] stores [min(len(vocab),
    SUCCESS_AT_COUNT)] as the target count and calls [jumbled] with it.  When
    it returns a page, the stored count is positive and the matches are the
    empty list; it returns the page whenever the vocabulary is non-empty, the
    configured count is positive and [jumbled] returns.  When the clamped
    count is not positive, [index] raises instead of returning a page. *)
Theorem index_sets_clamped_target_count (s : server) (now : Z) :
  target_count (flask_session (fst (index now s))) = Some (clamped_count s)
  /\ calls (fst (index now s))
     = calls s ++ [{| call_words := Vocab_as_list (WORDS s);
                      call_n := clamped_count s;
                      call_seed := seed_argument (SEED s) |}]
  /\ (forall p, snd (index now s) = Ok p ->
         0 < clamped_count s
         /\ matches (flask_session (fst (index now s))) = Some [])
  /\ (forall j,
         Vocab_as_list (WORDS s) <> [] ->
         0 < SUCCESS_AT_COUNT (CONFIG s) ->
         jumbled (Vocab_as_list (WORDS s)) (clamped_count s)
                 (seed_argument (SEED s)) now = Ok j ->
         snd (index now s) = Ok (render_template "vocab.html")
         /\ 0 < clamped_count s
         /\ jumble (flask_session (fst (index now s))) = Some j
         /\ matches (flask_session (fst (index now s))) = Some [])
  /\ (clamped_count s <= 0 -> is_ok (snd (index now s)) = false).
Proof.
  rewrite (index_cases s now). cbv zeta.
  destruct (jumbled _ _ _ now) as [j|e] eqn:Hj; simpl.
  - destruct (Z.ltb_spec 0 (clamped_count s)) as [Hpos|Hneg].
    + split; [done|]. split; [done|]. split; [done|].
      split; [|lia]. by intros j' _ _ [= <-].
    + split; [done|]. split; [done|]. split; [done|].
      split; [|done].
      intros j' Hne Hcfg _. exfalso. unfold clamped_count in Hneg.
      destruct (Vocab_as_list (WORDS s)); [done|]. simpl length in Hneg. lia.
  - split; [done|]. split; [done|]. split; [done|]. split; done.
Qed.


(** An exception of [int] other than ValueError is not caught: the module
    fails to initialise and no handler ever runs. *)
Lemma startup_uncaught (cfg : config) (words : Vocab) (e : exn) :
  Vocab_init (VOCAB cfg) = Ok words ->
  int (SEED_setting cfg) = Raise e -> e <> ValueError ->
  startup cfg = Raise e.
Proof.
  intros Hw He Hne. unfold startup. rewrite Hw, He.
  by destruct e.
Qed.

(** No handler rebinds the module's globals. *)
Lemma handle_keeps_globals (r : request) (s : server) :
  WORDS (handle r s) = WORDS s
  /\ SEED (handle r s) = SEED s
  /\ CONFIG (handle r s) = CONFIG s.
Proof.
  destruct r as [now|text]; simpl.
  - rewrite (index_cases s now). cbv zeta.
    destruct (jumbled _ _ _ now); [|done].
    by destruct (0 <? clamped_count s).
  - destruct (jumble (flask_session s)) as [j|] eqn:Hj.
    + rewrite (check_cases s text j Hj). cbv zeta.
      by destruct (Vocab_has (WORDS s) text), (LetterBag_contains j text),
        (py_in text (found s)).
    + by rewrite (check_without_jumble s text Hj).
Qed.

(** What a request leaves: the state its view reached when the view
    returned, and that state with the session the client sent when the view
    raised. *)
Lemma respond_cases {A} (s : server) (run : server * result A) :
  respond s run =
    if is_ok (snd run) then fst run else keep_cookie s (fst run).
Proof. by destruct run as [s' [a|e]]. Qed.

Lemma keep_cookie_same (s : server) : keep_cookie s s = s.
Proof. by destruct s. Qed.

Lemma serve_keeps_WORDS (rs : list request) : forall s : server,
  WORDS (serve rs s) = WORDS s.
Proof.
  unfold serve. induction rs as [|r rs IH]; intros s; simpl; [reflexivity|].
  rewrite IH. apply handle_keeps_globals.
Qed.

End App.

End FlaskVocab.

(** ** The application linked with the modelled modules *)

Module Game.

Import FlaskVocab.

Section Linked.

Variable normalize : string -> string.
Variable comment_prefix : string.
(** The word-list files: the lines at a path, [None] when it cannot be read. *)
Variable files : string -> option (list string).
Variable rng : Type.
Variable seeded : Z -> rng.
Variable draw : rng -> nat -> nat * rng.
Variable int_builtin : value -> result Z.

Definition linked : Imports :=
  {| Vocab := Vocab.Vocabulary;
     Vocab_init := fun path =>
       Vocab.LoadVocabulary normalize comment_prefix (files path);
     Vocab_as_list := Vocab.as_ordered_list;
     Vocab_has := Vocab.has normalize;
     LetterBag_contains := fun jumble text =>
       LetterBag.contains (LetterBag.NewLetterMultiset jumble) text;
     jumbled := Jumble.GenerateJumble rng seeded draw;
     int := int_builtin |}.

(** C8.  Loading fails with LoadError when the source is unreadable and when
    none of its lines is a word, and then the application does not start; a
    readable source with a word line loads into a vocabulary that holds the
    word; the vocabulary a started server holds is the loaded one, and it is
    the same after any sequence of requests. *)
Theorem Vocabulary_loads_or_fails_and_stays (cfg : config) :
  Vocab.LoadVocabulary normalize comment_prefix None = Raise LoadError
  /\ (forall lines,
        (forall l, In l lines -> Vocab.is_word normalize comment_prefix l = false) ->
        Vocab.LoadVocabulary normalize comment_prefix (Some lines)
        = Raise LoadError)
  /\ (forall lines l,
        In l lines -> Vocab.is_word normalize comment_prefix l = true ->
        exists v,
          Vocab.LoadVocabulary normalize comment_prefix (Some lines) = Ok v
          /\ Vocab.words v <> []
          /\ Vocab.has normalize v l = true)
  /\ (Vocab.LoadVocabulary normalize comment_prefix (files (VOCAB cfg))
      = Raise LoadError ->
      startup (I := linked) cfg = Raise LoadError)
  /\ (forall s : server (I := linked),
        startup (I := linked) cfg = Ok s ->
        Vocab.LoadVocabulary normalize comment_prefix (files (VOCAB cfg))
        = Ok (WORDS s)
        /\ Vocab.words (WORDS s) <> []
        /\ forall rs, WORDS (serve rs s) = WORDS s).
Proof.
  split; [reflexivity|].
  split; [apply Vocab.LoadVocabulary_no_word|].
  split.
  { intros lines l Hin Hw.
    destruct (Vocab.LoadVocabulary_some_word normalize comment_prefix
                lines l Hin Hw) as (v & Hv & _ & Hmem & _).
    exists v. split; [exact Hv|]. split.
    - intros Hnil. rewrite Hnil in Hmem. by apply not_elem_of_nil in Hmem.
    - by apply Vocab.has_loaded. }
  split.
  { unfold startup. simpl. by intros ->. }
  intros s. unfold startup. simpl.
  destruct (Vocab.LoadVocabulary normalize comment_prefix (files (VOCAB cfg)))
    as [v|e] eqn:Hload; [|discriminate].
  intros Hs.
  assert (Hw : WORDS s = v).
  { destruct (int_builtin (SEED_setting cfg)) as [z|[]]; by simplify_eq. }
  rewrite Hw. split; [reflexivity|]. split.
  - unfold Vocab.LoadVocabulary in Hload.
    destruct (files (VOCAB cfg)); [|discriminate].
    destruct (remove_dups _) eqn:E; [discriminate|].
    by injection Hload as <-.
  - intros rs. rewrite (serve_keeps_WORDS rs s). exact Hw.
Qed.

End Linked.

End Game.

(** ** A concrete game

    The scenario of the specification's section 8: the words cat, act and
    tack, loaded from a word list with stray case, blanks and a comment line.
    The normalisation rule here strips ASCII white space and lowers ASCII
    letters, the comment marker is "#", the generator is a linear
    congruential one, and [int] reads plain decimal numerals.  The theorems
    above hold for any choice of these; the choices below only serve to run
    the handlers. *)

Module Scenario.

Import FlaskVocab.

Definition is_space (c : ascii) : bool :=
  let n := nat_of_ascii c in
  ((9 <=? n) && (n <=? 13) || (n =? 32))%nat.

Definition lower (c : ascii) : ascii :=
  let n := nat_of_ascii c in
  if ((65 <=? n) && (n <=? 90))%nat then ascii_of_nat (n + 32) else c.

Fixpoint lstrip (l : list ascii) : list ascii :=
  match l with
  | c :: rest => if is_space c then lstrip rest else l
  | [] => []
  end.

Definition strip_lower (s : string) : string :=
  string_of_list_ascii
    (map lower (rev (lstrip (rev (lstrip (chars s)))))).

Definition lcg_draw (g : Z) (n : nat) : nat * Z :=
  let g' := (1103515245 * g + 12345) mod 2147483648 in
  (Z.to_nat (g' / 65536), g').

(** White space as the builtin [int] skips it around a numeral. *)
Definition int_space (c : ascii) : bool :=
  let n := nat_of_ascii c in
  ((9 <=? n) && (n <=? 13) || (28 <=? n) && (n <=? 32))%nat.

Fixpoint int_lstrip (l : list ascii) : list ascii :=
  match l with
  | c :: rest => if int_space c then int_lstrip rest else l
  | [] => []
  end.

Definition digit (c : ascii) : option Z :=
  let n := nat_of_ascii c in
  if ((48 <=? n) && (n <=? 57))%nat then Some (Z.of_nat n - 48) else None.

(** The digits of a numeral; one underscore may stand between two digits. *)
Fixpoint decimal (acc : Z) (l : list ascii) : result Z :=
  match l with
  | [] => Ok acc
  | c :: rest =>
      match digit c with
      | Some d => decimal (10 * acc + d) rest
      | None =>
          match rest with
          | c' :: _ =>
              if Ascii.eqb c "_" && bool_decide (is_Some (digit c'))
              then decimal acc rest
              else Raise ValueError
          | [] => Raise ValueError
          end
      end
  end.

(** A numeral starts with a digit. *)
Definition numeral (l : list ascii) : result Z :=
  match l with
  | c :: _ =>
      if bool_decide (is_Some (digit c)) then decimal 0 l
      else Raise ValueError
  | [] => Raise ValueError
  end.

(** The builtin [int] on the values of the configuration: an [int] is
    returned as it is, [None] is a TypeError, and a string is read in base
    ten: white space around it is skipped, one sign may precede the digits,
    and anything else is a ValueError. *)
Definition int_of_value (v : value) : result Z :=
  match v with
  | VNone => Raise TypeError
  | VInt z => Ok z
  | VStr s =>
      match rev (int_lstrip (rev (int_lstrip (chars s)))) with
      | "-"%char :: ds =>
          match numeral ds with
          | Ok z => Ok (- z)
          | Raise e => Raise e
          end
      | "+"%char :: ds => numeral ds
      | ds => numeral ds
      end
  end.

Definition word_list : list string :=
  [" Cat "; ""; "# the puzzle words"; "act"; "TACK"; "cat"].

Definition files (path : string) : option (list string) :=
  if String.eqb path "data/vocab.txt" then Some word_list
  else if String.eqb path "data/empty.txt" then Some [""; "# nothing here"]
  else None.

#[local] Instance game : Imports :=
  Game.linked strip_lower "#" files Z (fun r => r) lcg_draw int_of_value.

Definition cfg (seed : value) (n : Z) : config :=
  {| VOCAB := "data/vocab.txt"; SEED_setting := seed; SUCCESS_AT_COUNT := n |}.

Definition three_words : Vocab.Vocabulary :=
  {| Vocab.words := ["act"; "tack"; "cat"] |}.

(** A puzzle in progress: the jumble is "tack" and nothing is found yet. *)
Definition playing : server (I := game) :=
  {| CONFIG := cfg (VStr "7") 3;
     WORDS := three_words;
     SEED := Some 7;
     flask_session :=
       {| target_count := Some 3; jumble := Some "tack"; matches := Some [] |};
     calls := [] |}.

(** The server once "cat" has been found. *)
Definition found_cat : server (I := game) := fst (check "cat" playing).

(** The same puzzle with the jumble "tac". *)
Definition short_jumble : server (I := game) :=
  {| CONFIG := cfg (VStr "7") 3;
     WORDS := three_words;
     SEED := Some 7;
     flask_session :=
       {| target_count := Some 3; jumble := Some "tac"; matches := Some [] |};
     calls := [] |}.

Definition answer (b : branch) (v : bool) : result reply :=
  Ok {| taken := b; valid_word := v; success_count := 3 |}.

Example start_loads_the_words :
  startup (I := game) (cfg (VStr "7") 3)
  = Ok {| CONFIG := cfg (VStr "7") 3;
          WORDS := three_words;
          SEED := Some 7; flask_session := new_session; calls := [] |}.
Proof. reflexivity. Qed.

Example cat_is_accepted :
  snd (check "cat" playing) = answer Accept true
  /\ matches (flask_session found_cat) = Some ["cat"].
Proof. split; reflexivity. Qed.

Example cat_again_is_already_found :
  check "cat" found_cat = (found_cat, answer AlreadyFound false).
Proof. reflexivity. Qed.

Example dog_is_no_word :
  check "dog" found_cat = (found_cat, answer NotInVocabulary false).
Proof. reflexivity. Qed.

Example tack_is_not_in_tac :
  check "tack" short_jumble = (short_jumble, answer NotInJumble false).
Proof. reflexivity. Qed.

Example upper_case_cat_is_a_word :
  Vocab_has (Imports := game) (WORDS playing) " Cat " = true.
Proof. reflexivity. Qed.

(** *** The theorems at the scenario's inputs *)

(** "cat" is contained in the bag of "tack"; "tack" is not contained in the
    bag of "tac", which lacks the k. *)
Lemma contains_cat_in_tack_witness :
  LetterBag.contains (LetterBag.NewLetterMultiset "tack") "cat" = true
  /\ LetterBag.contains (LetterBag.NewLetterMultiset "tac") "tack" = false.
Proof.
  destruct (LetterBag.contains_is_multiset_inclusion "tac" "tack")
    as (_ & _ & Habsent).
  split; [reflexivity|].
  apply (Habsent "k"%char); simpl; [tauto|].
  intros [H|[H|[H|[]]]]; discriminate H.
Defined.

(** With the jumble "tack" and no match yet, "cat" is accepted. *)
Lemma check_accepts_cat_witness :
  jumble (flask_session playing) = Some "tack"
  /\ exists r, snd (check "cat" playing) = Ok r /\ taken r = Accept.
Proof.
  split; [reflexivity|].
  destruct (check_accepts_exactly_new_spellable_words playing "cat" "tack"
              eq_refl) as (r & Hr & Haccept & _).
  exists r. split; [exact Hr|].
  apply Haccept. split; [reflexivity|].
  split; [reflexivity|]. apply not_elem_of_nil.
Defined.

(** Two of the three words are chosen and can be spelled from the jumble. *)
Lemma GenerateJumble_two_words_witness :
  exists (J : string) (ws : list string),
    Jumble.GenerateJumble Z (fun r => r) lcg_draw ["act"; "tack"; "cat"] 2
      (Some 7) 0 = Ok J
    /\ Z.of_nat (length ws) = 2
    /\ NoDup ws
    /\ forall w, w ∈ ws ->
         w ∈ ["act"; "tack"; "cat"]
         /\ LetterBag.contains (LetterBag.NewLetterMultiset J) w = true.
Proof.
  apply (Jumble.GenerateJumble_spells_chosen_words Z (fun r => r) lcg_draw
           ["act"; "tack"; "cat"] 2 (Some 7) 0).
  - refine (bool_decide_unpack (NoDup ["act"; "tack"; "cat"]) _). exact I.
  - split; discriminate.
Defined.

(** A target count of four is rejected for a vocabulary of three words. *)
Lemma GenerateJumble_rejects_four_witness :
  Jumble.GenerateJumble Z (fun r => r) lcg_draw ["act"; "tack"; "cat"] 4
    (Some 7) 0 = Raise InvalidArgument.
Proof.
  apply (proj1 (Jumble.GenerateJumble_rejects_out_of_range Z (fun r => r)
                  lcg_draw ["act"; "tack"; "cat"] 4 (Some 7) 0)).
  right. reflexivity.
Defined.

(** The attempt "dog" returns from one outcome branch. *)
Lemma check_takes_one_branch_witness :
  exists b : branch,
    (exists r, snd (check "dog" playing) = Ok r /\ taken r = b)
    /\ forall b' r', snd (check "dog" playing) = Ok r' -> taken r' = b' ->
                     b' = b.
Proof.
  apply (proj2 (check_assertion_unreachable playing "dog") "tack").
  reflexivity.
Defined.

(** Rejecting "dog" leaves the server as it was. *)
Lemma check_rejects_dog_witness : fst (check "dog" playing) = playing.
Proof.
  apply (proj1 (check_rejection_leaves_session playing "dog")
           {| taken := NotInVocabulary; valid_word := false;
              success_count := 3 |}).
  - reflexivity.
  - discriminate.
Defined.

(** With three words and a configured count of three, [index] returns the
    page and stores a jumble and the empty list of matches. *)
Lemma index_starts_puzzle_witness :
  snd (index 0 playing) = Ok (render_template "vocab.html")
  /\ 0 < clamped_count playing
  /\ jumble (flask_session (fst (index 0 playing))) = Some "atccktctaa"
  /\ matches (flask_session (fst (index 0 playing))) = Some [].
Proof.
  apply (proj1 (proj2 (proj2 (proj2
           (index_sets_clamped_target_count playing 0))))).
  - discriminate.
  - reflexivity.
  - reflexivity.
Defined.

(** The server started with a configured count of zero. *)
Definition zero_count : server :=
  {| CONFIG := cfg (VStr "7") 0; WORDS := three_words; SEED := Some 7;
     flask_session := new_session; calls := [] |}.

(** The claim of C7 at a configured count of zero: the vocabulary is loaded
    and holds three words, the stored target count is [min(3, 0) = 0], which
    is not positive, and [index] raises instead of returning the page. *)
Lemma index_zero_threshold_counterexample :
  startup (cfg (VStr "7") 0) = Ok zero_count
  /\ Vocab_as_list (WORDS zero_count) = ["act"; "tack"; "cat"]
  /\ target_count (flask_session (fst (index 0 zero_count))) = Some 0
  /\ ~ 0 < clamped_count zero_count
  /\ snd (index 0 zero_count) = Raise InvalidArgument
  /\ matches (flask_session (fst (index 0 zero_count))) = None.
Proof.
  split; [reflexivity|]. split; [reflexivity|]. split; [reflexivity|].
  split; [|split; reflexivity].
  change (clamped_count zero_count) with 0. lia.
Qed.

(** A missing file and a file of blank and comment lines fail to load; the
    word list loads, and the vocabulary answers for " Cat ". *)
Lemma Vocabulary_loads_witness :
  Vocab.LoadVocabulary strip_lower "#" (files "data/missing.txt")
  = Raise LoadError
  /\ Vocab.LoadVocabulary strip_lower "#" (files "data/empty.txt")
     = Raise LoadError
  /\ exists v, Vocab.LoadVocabulary strip_lower "#" (Some word_list) = Ok v
               /\ Vocab.words v <> []
               /\ Vocab.has strip_lower v " Cat " = true.
Proof.
  destruct (Game.Vocabulary_loads_or_fails_and_stays strip_lower "#" files
              Z (fun r => r) lcg_draw int_of_value (cfg (VStr "7") 3))
    as (Hnone & Hempty & Hsome & _).
  split; [exact Hnone|]. split.
  - apply Hempty. intros l [<-|[<-|[]]]; reflexivity.
  - apply (Hsome word_list " Cat "); [left; reflexivity|].
    reflexivity.
Defined.

(** The server started with the seed setting "-7". *)
Definition negative_seed : server :=
  {| CONFIG := cfg (VStr "-7") 2; WORDS := three_words; SEED := Some (-7);
     flask_session := new_session; calls := [] |}.



(** What [int_of_value] reads. *)
Example int_of_value_reads :
  int_of_value (VStr " 42 ") = Ok 42
  /\ int_of_value (VStr "+7") = Ok 7
  /\ int_of_value (VStr "-12") = Ok (-12)
  /\ int_of_value (VStr "1_000") = Ok 1000
  /\ int_of_value (VStr "007") = Ok 7
  /\ int_of_value (VStr "") = Raise ValueError
  /\ int_of_value (VStr "-") = Raise ValueError
  /\ int_of_value (VStr "- 7") = Raise ValueError
  /\ int_of_value (VStr "3.5") = Raise ValueError
  /\ int_of_value (VStr "1__0") = Raise ValueError
  /\ int_of_value (VStr "_1") = Raise ValueError
  /\ int_of_value (VStr "1_") = Raise ValueError
  /\ int_of_value (VStr "seven") = Raise ValueError.
Proof. repeat split; reflexivity. Qed.

End Scenario.

(** ** Runs of requests

    What the handlers of [flask_vocab.py] keep true over any sequence of
    requests of one client, and how [index] and [check] compose. *)

Module Runs.

Import FlaskVocab.

Section Runs.

Context {I : Imports}.

(** The server with the session's matches replaced (lines 102-103). *)
Definition with_matches (s : server) (ms : list string) : server :=
  {| CONFIG := CONFIG s; WORDS := WORDS s; SEED := SEED s;
     flask_session :=
       {| target_count := target_count (flask_session s);
          jumble := jumble (flask_session s);
          matches := Some ms |};
     calls := calls s |}.

(** The call [index] makes in the state [s] (lines 52-53). *)
Definition index_call (s : server) : jumbled_call :=
  {| call_words := Vocab_as_list (WORDS s);
     call_n := clamped_count s;
     call_seed := seed_argument (SEED s) |}.

(** The number of requests for the main page in a run. *)
Definition index_requests (rs : list request) : nat :=
  length (List.filter (fun r => match r with GetIndex _ => true | _ => false end) rs).

(** Every match was a vocabulary word that the session's jumble spells. *)
Definition matches_justified (s : server) : Prop :=
  forall w, w ∈ found s ->
    Vocab_has (WORDS s) w = true
    /\ exists j, jumble (flask_session s) = Some j
                 /\ LetterBag_contains j w = true.

(** What start-up leaves: the configuration, an empty session, no call. *)
Lemma startup_fresh (cfg : config) (s : server) :
  startup cfg = Ok s ->
  CONFIG s = cfg /\ flask_session s = new_session /\ calls s = []
  /\ Vocab_init (VOCAB cfg) = Ok (WORDS s)
  /\ SEED s = match int (SEED_setting cfg) with
              | Ok z => Some z
              | Raise _ => None
              end.
Proof.
  unfold startup.
  destruct (Vocab_init (VOCAB cfg)) as [words|e]; [|discriminate].
  destruct (int (SEED_setting cfg)) as [z|[]]; intros; simplify_eq; done.
Qed.

(** The two things [check] can do to the server. *)
Lemma check_effect (s : server) (text : string) :
  (fst (check text s) = s
   /\ forall r, snd (check text s) = Ok r -> taken r <> Accept)
  \/ (exists j, jumble (flask_session s) = Some j
        /\ Vocab_has (WORDS s) text = true
        /\ LetterBag_contains j text = true
        /\ (text ∉ found s)
        /\ fst (check text s) = with_matches s (found s ++ [text])
        /\ exists r, snd (check text s) = Ok r /\ taken r = Accept).
Proof.
  destruct (jumble (flask_session s)) as [j|] eqn:Hj.
  - rewrite (check_cases s text j Hj). cbv zeta.
    destruct (Vocab_has (WORDS s) text) eqn:Hm;
      destruct (LetterBag_contains j text) eqn:Hi;
      destruct (py_in text (found s)) eqn:Hf; simpl;
      try (left; split; [reflexivity|intros r [= <-]; discriminate]).
    right. exists j. apply py_in_false in Hf.
    repeat split; try done. eexists. split; reflexivity.
  - rewrite (check_without_jumble s text Hj). simpl.
    left. split; [reflexivity|discriminate].
Qed.

Lemma found_with_matches (s : server) (ms : list string) :
  found (with_matches s ms) = ms.
Proof. reflexivity. Qed.

(** The three things [index] can do to the session. *)
Lemma index_effect (s : server) (now : Z) :
  calls (fst (index now s)) = calls s ++ [index_call s]
  /\ WORDS (fst (index now s)) = WORDS s
  /\ target_count (flask_session (fst (index now s))) = Some (clamped_count s)
  /\ ((jumble (flask_session (fst (index now s))) = jumble (flask_session s)
       /\ matches (flask_session (fst (index now s)))
          = matches (flask_session s)
       /\ exists e, snd (index now s) = Raise e)
      \/ (exists j, jumble (flask_session (fst (index now s))) = Some j
            /\ matches (flask_session (fst (index now s))) = Some [])).
Proof.
  rewrite (index_cases s now). cbv zeta. unfold index_call.
  destruct (jumbled _ _ _ now) as [j|e]; simpl.
  - repeat split. right. by exists j.
  - repeat split. left. repeat split. by exists e.
Qed.

(** What a check request leaves. *)
Lemma handle_check_effect (s : server) (text : string) :
  handle (GetCheck text) s = s
  \/ (exists j, jumble (flask_session s) = Some j
        /\ Vocab_has (WORDS s) text = true
        /\ LetterBag_contains j text = true
        /\ (text ∉ found s)
        /\ handle (GetCheck text) s = with_matches s (found s ++ [text])).
Proof.
  simpl. rewrite respond_cases.
  destruct (check_effect s text)
    as [[Hs _]|(j & Hj & Hh & Hc & Hn & Hs & r & Hr & _)].
  - left. rewrite Hs. destruct (is_ok _); [done|apply keep_cookie_same].
  - right. exists j. by rewrite Hr, Hs.
Qed.

(** What a request for the main page leaves. *)
Lemma handle_index_effect (s : server) (now : Z) :
  calls (handle (GetIndex now) s) = calls s ++ [index_call s]
  /\ (flask_session (handle (GetIndex now) s) = flask_session s
      \/ (target_count (flask_session (handle (GetIndex now) s))
          = Some (clamped_count s)
          /\ matches (flask_session (handle (GetIndex now) s)) = Some []
          /\ exists j,
               jumble (flask_session (handle (GetIndex now) s)) = Some j)).
Proof.
  simpl. rewrite respond_cases.
  destruct (index_effect s now) as (Hc & _ & Ht & Hcases).
  destruct (is_ok (snd (index now s))) eqn:Hok; (split; [exact Hc|]).
  - destruct Hcases as [(_ & _ & e & He)|(j & Hj & Hm)].
    + rewrite He in Hok. discriminate.
    + right. eauto.
  - by left.
Qed.

Lemma handle_index_call (r : request) (s : server) :
  index_call (handle r s) = index_call s.
Proof.
  destruct (handle_keeps_globals r s) as (Hw & Hs & Hc).
  unfold index_call, clamped_count. by rewrite Hw, Hs, Hc.
Qed.

(** The calls of a run, from any state. *)
Lemma serve_calls (rs : list request) : forall s : server,
  calls (serve rs s) = calls s ++ repeat (index_call s) (index_requests rs).
Proof.
  unfold serve, index_requests.
  induction rs as [|r rs IH]; intros s; simpl.
  - by rewrite app_nil_r.
  - rewrite IH, handle_index_call. destruct r as [now|text].
    + rewrite (proj1 (handle_index_effect s now)). simpl.
      by rewrite <- app_assoc.
    + destruct (handle_check_effect s text)
        as [->|(j & _ & _ & _ & _ & ->)]; reflexivity.
Qed.

Lemma handle_keeps_distinct (r : request) (s : server) :
  NoDup (found s) -> NoDup (found (handle r s)).
Proof.
  intros Hnd. destruct r as [now|text].
  - destruct (handle_index_effect s now)
      as (_ & [Hs|(_ & Hm & _)]); unfold found in *.
    + by rewrite Hs.
    + rewrite Hm. simpl. constructor.
  - destruct (handle_check_effect s text)
      as [->|(j & _ & _ & _ & Hnew & ->)]; [done|].
    rewrite found_with_matches. apply NoDup_app. split; [done|].
    split; [|apply NoDup_singleton].
    intros x Hx Hx'. apply list_elem_of_singleton in Hx'. by subst.
Qed.

Lemma handle_keeps_justified (r : request) (s : server) :
  matches_justified s -> matches_justified (handle r s).
Proof.
  intros Hinv. unfold matches_justified.
  destruct (handle_keeps_globals r s) as (Hw & _). rewrite Hw. clear Hw.
  destruct r as [now|text].
  - destruct (handle_index_effect s now)
      as (_ & [Hs|(_ & Hm & _)]); unfold found in *.
    + rewrite Hs. exact Hinv.
    + rewrite Hm. simpl. intros w Hw. by apply not_elem_of_nil in Hw.
  - destruct (handle_check_effect s text)
      as [->|(j & Hj & Hhas & Hin & _ & ->)]; [exact Hinv|].
    rewrite found_with_matches. simpl. intros w Hw.
    apply elem_of_app in Hw as [Hw|Hw].
    + exact (Hinv w Hw).
    + apply list_elem_of_singleton in Hw. subst w. split; [done|]. by exists j.
Qed.

(** A jumble in the session was stored by [index], after the target count. *)
Definition count_stored (n : Z) (s : server) : Prop :=
  jumble (flask_session s) <> None ->
  target_count (flask_session s) = Some n.

Lemma handle_keeps_count_stored (r : request) (s : server) :
  count_stored (clamped_count s) s ->
  count_stored (clamped_count s) (handle r s).
Proof.
  unfold count_stored. intros Hinv.
  destruct r as [now|text].
  - destruct (handle_index_effect s now) as (_ & [Hs|(Ht & _)]).
    + by rewrite Hs.
    + by rewrite Ht.
  - destruct (handle_check_effect s text)
      as [->|(j & _ & _ & _ & _ & ->)]; exact Hinv.
Qed.

Lemma handle_clamped_count (r : request) (s : server) :
  clamped_count (handle r s) = clamped_count s.
Proof.
  destruct (handle_keeps_globals r s) as (Hw & _ & Hc).
  unfold clamped_count. by rewrite Hw, Hc.
Qed.

Lemma serve_keeps_count_stored (rs : list request) : forall s : server,
  count_stored (clamped_count s) s ->
  count_stored (clamped_count s) (serve rs s)
  /\ CONFIG (serve rs s) = CONFIG s.
Proof.
  unfold serve. induction rs as [|r rs IH]; intros s Hinv; simpl; [done|].
  destruct (IH (handle r s)) as [Hc Hcfg].
  { rewrite handle_clamped_count. by apply handle_keeps_count_stored. }
  rewrite handle_clamped_count in Hc. split; [exact Hc|].
  rewrite Hcfg. apply handle_keeps_globals.
Qed.

(** X1.  Before the first request for the main page the session holds no
    jumble: after start-up and any number of check requests, [check] raises
    KeyError for the key "jumble" and the server is still as start-up left
    it. *)
Theorem check_before_index_raises_KeyError (cfg : config) (s : server)
    (texts : list string) (text : string) :
  startup cfg = Ok s ->
  serve (map GetCheck texts) s = s
  /\ check text s = (s, Raise (KeyError "jumble")).
Proof.
  intros Hs. destruct (startup_fresh cfg s Hs) as (_ & Hsess & _).
  assert (Hj : jumble (flask_session s) = None) by by rewrite Hsess.
  split; [|exact (check_without_jumble s text Hj)].
  unfold serve. induction texts as [|t texts IH]; simpl; [reflexivity|].
  destruct (handle_check_effect s t) as [Hsame|(j & Hj' & _)].
  - simpl in Hsame. by rewrite Hsame.
  - rewrite Hj in Hj'. discriminate.
Qed.

(** X2.  The matches never hold a word twice: a list of matches without
    duplicates stays so over any run of requests. *)
Theorem matches_stay_distinct (rs : list request) (s : server) :
  NoDup (found s) -> NoDup (found (serve rs s)).
Proof.
  unfold serve. revert s.
  induction rs as [|r rs IH]; intros s Hnd; simpl; [exact Hnd|].
  apply IH. by apply handle_keeps_distinct.
Qed.

(** X3.  After start-up and any run of requests, every word among the
    matches is one that [WORDS.has] accepts and that the letter bag of the
    jumble now in the session contains. *)
Theorem matches_are_spellable_words (cfg : config) (s : server)
    (rs : list request) (w : string) :
  startup cfg = Ok s ->
  w ∈ found (serve rs s) ->
  Vocab_has (WORDS s) w = true
  /\ exists j, jumble (flask_session (serve rs s)) = Some j
               /\ LetterBag_contains j w = true.
Proof.
  intros Hs. destruct (startup_fresh cfg s Hs) as (_ & Hsess & _).
  assert (Hinv : matches_justified s).
  { intros x Hx. unfold found in Hx. rewrite Hsess in Hx.
    by apply not_elem_of_nil in Hx. }
  clear Hs Hsess. rewrite <- (serve_keeps_WORDS rs s).
  revert s Hinv. unfold serve.
  induction rs as [|r rs IH]; intros s Hinv; simpl; [apply Hinv|].
  apply IH. by apply handle_keeps_justified.
Qed.

(** X4.  Submitting the same text again never counts: the second [check]
    leaves the server as the first left it and replies [valid_word] false,
    from the already-found branch when the first was accepted and with the
    first reply otherwise. *)
Theorem check_twice_counts_once (s : server) (text : string) (r1 : reply) :
  snd (check text s) = Ok r1 ->
  exists r2 : reply,
    check text (fst (check text s)) = (fst (check text s), Ok r2)
    /\ valid_word r2 = false
    /\ (taken r1 = Accept -> taken r2 = AlreadyFound)
    /\ (taken r1 <> Accept -> r2 = r1).
Proof.
  destruct (jumble (flask_session s)) as [j|] eqn:Hj.
  - rewrite (check_cases s text j Hj). cbv zeta.
    destruct (Vocab_has (WORDS s) text) eqn:Hm;
      destruct (LetterBag_contains j text) eqn:Hi;
      destruct (py_in text (found s)) eqn:Hf; simpl; intros [= <-];
      try (rewrite (check_cases s text j Hj); cbv zeta;
           rewrite Hm, Hi, Hf; simpl; eexists; split; [reflexivity|];
           simpl; repeat split; done).
    match goal with |- context [check text ?s'] =>
      rewrite (check_cases s' text j Hj); cbv zeta;
      change (found s') with (found s ++ [text]) end.
    assert (Hin : py_in text (found s ++ [text]) = true).
    { apply py_in_true, elem_of_app. right. by apply list_elem_of_singleton. }
    rewrite Hin. simpl. rewrite andb_false_r. simpl.
    eexists. split; [reflexivity|]. simpl. repeat split; done.
  - rewrite (check_without_jumble s text Hj). simpl. discriminate.
Qed.

(** X5.  Once [index] has returned the page, [check] answers every text: it
    does not raise, it never answers from the already-found branch, and it
    accepts exactly the texts that [WORDS.has] accepts and the letter bag of
    the jumble just generated contains. *)
Theorem check_after_index_answers (s : server) (now : Z) (p : page)
    (text : string) :
  snd (index now s) = Ok p ->
  exists (j : string) (r : reply),
    jumbled (Vocab_as_list (WORDS s)) (clamped_count s)
            (seed_argument (SEED s)) now = Ok j
    /\ snd (check text (fst (index now s))) = Ok r
    /\ taken r <> AlreadyFound
    /\ (taken r = Accept <->
          Vocab_has (WORDS s) text = true /\ LetterBag_contains j text = true).
Proof.
  rewrite (index_cases s now). cbv zeta.
  destruct (jumbled _ _ _ now) as [j|e]; simpl; [|discriminate].
  intros _. exists j.
  match goal with |- context [check text ?s'] =>
    rewrite (check_cases s' text j eq_refl); cbv zeta;
    change (found s') with (@nil string); change (WORDS s') with (WORDS s) end.
  destruct (Vocab_has (WORDS s) text), (LetterBag_contains j text); simpl;
    eexists; (split; [reflexivity|]); (split; [reflexivity|]); simpl;
    (split; [discriminate|]); split; intros; destruct_and?; done.
Qed.

(** X6.  When [jumbled] raises, [index] raises the same exception after it
    has overwritten the target count; the jumble and the matches of the
    puzzle in play are kept, and [check] answers as before. *)
Theorem index_failure_keeps_old_puzzle (s : server) (now : Z) (e : exn) :
  jumbled (Vocab_as_list (WORDS s)) (clamped_count s)
          (seed_argument (SEED s)) now = Raise e ->
  snd (index now s) = Raise e
  /\ target_count (flask_session (fst (index now s)))
     = Some (clamped_count s)
  /\ jumble (flask_session (fst (index now s))) = jumble (flask_session s)
  /\ matches (flask_session (fst (index now s)))
     = matches (flask_session s)
  /\ forall text, snd (check text (fst (index now s))) = snd (check text s).
Proof.
  intros He. rewrite (index_cases s now). cbv zeta. rewrite He. simpl.
  repeat split. intros text.
  destruct (jumble (flask_session s)) as [j|] eqn:Hj.
  - rewrite (check_cases s text j Hj).
    match goal with |- context [check text ?s'] =>
      rewrite (check_cases s' text j eq_refl) end.
    cbv zeta. unfold found. simpl.
    by destruct (Vocab_has (WORDS s) text), (LetterBag_contains j text),
      (py_in text (default [] (matches (flask_session s)))).
  - rewrite (check_without_jumble s text Hj).
    match goal with |- context [check text ?s'] =>
      rewrite (check_without_jumble s' text eq_refl) end.
    reflexivity.
Qed.

(** X7.  The assertions of [index] come after its assignments: when
    [jumbled] returns but the clamped count is not positive, [index] raises
    AssertionError with the new jumble and the empty list of matches already
    in the session. *)
Theorem index_asserts_after_storing (s : server) (now : Z) (j : string) :
  jumbled (Vocab_as_list (WORDS s)) (clamped_count s)
          (seed_argument (SEED s)) now = Ok j ->
  clamped_count s <= 0 ->
  snd (index now s) = Raise AssertionError
  /\ flask_session (fst (index now s))
     = {| target_count := Some (clamped_count s); jumble := Some j;
          matches := Some [] |}.
Proof.
  intros Hj Hn. rewrite (index_cases s now). cbv zeta. rewrite Hj. simpl.
  destruct (Z.ltb_spec 0 (clamped_count s)); [lia|done].
Qed.

(** X8.  Over a run after start-up, [jumbled] is called once for each request
    for the main page and never by [check], every time with the vocabulary's
    list, the clamped count and the same seed; the seed is [None] or the
    positive number [int(CONFIG.SEED)] gave. *)
Theorem jumbled_called_once_per_index (cfg : config) (s : server)
    (rs : list request) :
  startup cfg = Ok s ->
  calls (serve rs s) = repeat (index_call s) (index_requests rs)
  /\ (call_seed (index_call s) = None
      \/ exists z, call_seed (index_call s) = Some z /\ 0 < z
                   /\ int (SEED_setting cfg) = Ok z).
Proof.
  intros Hs. destruct (startup_fresh cfg s Hs) as (_ & _ & Hc & _ & Hseed).
  split; [by rewrite serve_calls, Hc|].
  simpl. rewrite Hseed. unfold seed_argument, truthy.
  destruct (int (SEED_setting cfg)) as [z|e]; [|by left].
  destruct (Z.eqb_spec z 0); simpl; [by left|].
  destruct (Z.ltb_spec z 0); [by left|].
  right. exists z. repeat split; [lia].
Qed.

(** X9.  Whenever [check] answers in a run after start-up, the session holds
    the clamped target count, and the [success_count] of the reply is the
    configured count, which the target count never exceeds; the target count
    is smaller when the vocabulary has fewer words than the configured
    count. *)
Theorem check_reports_configured_count (cfg : config) (s : server)
    (rs : list request) (text : string) (r : reply) :
  startup cfg = Ok s ->
  snd (check text (serve rs s)) = Ok r ->
  success_count r = SUCCESS_AT_COUNT cfg
  /\ target_count (flask_session (serve rs s)) = Some (clamped_count s)
  /\ clamped_count s <= success_count r
  /\ (Z.of_nat (length (Vocab_as_list (WORDS s))) < SUCCESS_AT_COUNT cfg ->
      clamped_count s < success_count r).
Proof.
  intros Hs Hr. destruct (startup_fresh cfg s Hs) as (Hcfg & Hsess & _).
  destruct (serve_keeps_count_stored rs s) as [Hinv Hcfg'].
  { intros Hj. rewrite Hsess in Hj. by destruct Hj. }
  destruct (jumble (flask_session (serve rs s))) as [j|] eqn:Hj.
  2:{ rewrite (check_without_jumble _ text Hj) in Hr. discriminate. }
  assert (Hcount : success_count r = SUCCESS_AT_COUNT cfg).
  { rewrite (check_cases _ text j Hj) in Hr. cbv zeta in Hr.
    rewrite Hcfg', Hcfg in Hr.
    destruct (Vocab_has _ text), (LetterBag_contains j text),
      (py_in text _); simpl in Hr; by injection Hr as <-. }
  split; [exact Hcount|]. split.
  { apply Hinv. by rewrite Hj. }
  rewrite Hcount. unfold clamped_count. rewrite Hcfg. lia.
Qed.

(** X10.  Start-up fails exactly when the [Vocab] constructor raises, or it
    returns and [int(CONFIG.SEED)] raises something other than ValueError;
    the exception is the constructor's in the first case and that of [int]
    in the second. *)
Theorem startup_failures (cfg : config) (e : exn) :
  startup cfg = Raise e <->
  Vocab_init (VOCAB cfg) = Raise e
  \/ (is_ok (Vocab_init (VOCAB cfg)) = true
      /\ int (SEED_setting cfg) = Raise e /\ e <> ValueError).
Proof.
  unfold startup.
  destruct (Vocab_init (VOCAB cfg)) as [words|e'] eqn:Hv; simpl.
  - destruct (int (SEED_setting cfg)) as [z|e'']; simpl.
    + split; [discriminate|]. intros [H|(_ & H & _)]; discriminate.
    + split.
      * intros H. right. destruct e''; simplify_eq; done.
      * intros [H|(_ & H & Hne)]; [discriminate|]. simplify_eq.
        by destruct e.
  - split; [intros [= ->]; by left|].
    intros [H|(H & _)]; [by injection H as ->|discriminate].
Qed.

(** X11.  A run of check requests only appends: the matches after it are the
    matches before it followed by some of the submitted texts, in the order
    they were submitted, and the jumble and the target count are as
    before. *)
Theorem checks_append_in_order (texts : list string) (s : server) :
  exists new : list string,
    found (serve (map GetCheck texts) s) = found s ++ new
    /\ sublist new texts
    /\ jumble (flask_session (serve (map GetCheck texts) s))
       = jumble (flask_session s)
    /\ target_count (flask_session (serve (map GetCheck texts) s))
       = target_count (flask_session s).
Proof.
  unfold serve. revert s.
  induction texts as [|t texts IH]; intros s; simpl.
  - exists []. rewrite app_nil_r. repeat split. constructor.
  - change (respond s (check t s)) with (handle (GetCheck t) s).
    destruct (handle_check_effect s t)
      as [->|(j & _ & _ & _ & _ & ->)].
    + destruct (IH s) as (new & Hf & Hsub & Hj & Ht).
      exists new. repeat split; try done. by apply sublist_cons.
    + destruct (IH (with_matches s (found s ++ [t])))
        as (new & Hf & Hsub & Hj & Ht).
      exists (t :: new). rewrite Hf, found_with_matches, <- app_assoc.
      repeat split; try done. by apply sublist_skip.
Qed.

(** X12.  The reply of [check] depends on the session only through the
    jumble and the matches, where a missing list of matches counts as the
    empty one; the target count and the rest of the server play no part. *)
Theorem check_reads_jumble_and_matches (s1 s2 : server) (text : string) :
  jumble (flask_session s1) = jumble (flask_session s2) ->
  found s1 = found s2 ->
  WORDS s1 = WORDS s2 ->
  SUCCESS_AT_COUNT (CONFIG s1) = SUCCESS_AT_COUNT (CONFIG s2) ->
  snd (check text s1) = snd (check text s2).
Proof.
  intros Hj Hf Hw Hc.
  destruct (jumble (flask_session s2)) as [j|] eqn:Hj2.
  - rewrite (check_cases s1 text j Hj), (check_cases s2 text j Hj2).
    cbv zeta. rewrite Hf, Hw, Hc.
    by destruct (Vocab_has (WORDS s2) text), (LetterBag_contains j text),
      (py_in text (found s2)).
  - by rewrite (check_without_jumble s1 text Hj),
      (check_without_jumble s2 text Hj2).
Qed.

(** X13.  [index] starts from the globals alone: two servers with the same
    configuration, vocabulary and seed get the same answer, and the same
    session whenever [jumbled] returns, whatever their sessions held. *)
Theorem index_ignores_old_session (s1 s2 : server) (now : Z) :
  CONFIG s1 = CONFIG s2 -> WORDS s1 = WORDS s2 -> SEED s1 = SEED s2 ->
  snd (index now s1) = snd (index now s2)
  /\ (is_ok (jumbled (Vocab_as_list (WORDS s1)) (clamped_count s1)
                     (seed_argument (SEED s1)) now) = true ->
      flask_session (fst (index now s1)) = flask_session (fst (index now s2))).
Proof.
  intros Hc Hw Hs.
  rewrite (index_cases s1 now), (index_cases s2 now). cbv zeta.
  unfold clamped_count. rewrite Hc, Hw, Hs.
  destruct (jumbled _ _ _ now) as [j|e]; simpl; [done|].
  split; [reflexivity|discriminate].
Qed.

End Runs.

End Runs.

(** ** Runs of the concrete game *)

Module Rounds.

Import FlaskVocab Runs Scenario.

#[local] Existing Instance game.

(** The server as start-up leaves it, with the seed setting "7" and a
    configured count of three. *)
Definition started : server :=
  {| CONFIG := cfg (VStr "7") 3; WORDS := three_words; SEED := Some 7;
     flask_session := new_session; calls := [] |}.

(** A puzzle in play on a server whose configured count is zero. *)
Definition misconfigured : server :=
  {| CONFIG := cfg (VStr "7") 0; WORDS := three_words; SEED := Some 7;
     flask_session :=
       {| target_count := Some 3; jumble := Some "tack";
          matches := Some ["cat"] |};
     calls := [] |}.

(** A game whose generator answers a count of zero with the empty jumble, as
    sampling no word would, and is the modelled generator otherwise. *)
Definition lenient : Imports :=
  {| Vocab := Vocab.Vocabulary;
     Vocab_init := Vocab_init (Imports := game);
     Vocab_as_list := Vocab.as_ordered_list;
     Vocab_has := Vocab.has strip_lower;
     LetterBag_contains := LetterBag_contains (Imports := game);
     jumbled := fun words n seed now =>
       if n =? 0 then Ok "" else jumbled (Imports := game) words n seed now;
     int := int_of_value |}.

Definition lenient_zero : server (I := lenient) :=
  @Build_server lenient (cfg (VStr "7") 0) three_words (Some 7)
    new_session [].

(** A check request on the started server raises KeyError, also after other
    check requests. *)
Lemma check_before_index_witness :
  serve (map GetCheck ["cat"; "dog"]) started = started
  /\ check "act" started = (started, Raise (KeyError "jumble")).
Proof.
  apply (check_before_index_raises_KeyError (cfg (VStr "7") 3) started
           ["cat"; "dog"] "act").
  reflexivity.
Defined.

(** Finding "cat" twice and "act" once gives two matches. *)
Lemma matches_stay_distinct_witness :
  NoDup (found (serve [GetCheck "cat"; GetCheck "cat"; GetCheck "act"]
                  playing))
  /\ found (serve [GetCheck "cat"; GetCheck "cat"; GetCheck "act"] playing)
     = ["cat"; "act"].
Proof.
  split; [|reflexivity].
  apply (matches_stay_distinct
           [GetCheck "cat"; GetCheck "cat"; GetCheck "act"] playing).
  constructor.
Defined.

(** After the main page and the attempt "cat", "cat" is a match, a word and
    spelled by the jumble. *)
Lemma matches_are_spellable_witness :
  Vocab_has (WORDS started) "cat" = true
  /\ exists j,
       jumble (flask_session (serve [GetIndex 0; GetCheck "cat"] started))
       = Some j
       /\ LetterBag_contains j "cat" = true.
Proof.
  apply (matches_are_spellable_words (cfg (VStr "7") 3) started
           [GetIndex 0; GetCheck "cat"] "cat").
  - reflexivity.
  - change (found (serve [GetIndex 0; GetCheck "cat"] started))
      with ["cat"]. apply list_elem_of_here.
Defined.

(** "cat" is accepted once and found already the second time. *)
Lemma check_twice_witness :
  exists r2 : reply,
    check "cat" found_cat = (found_cat, Ok r2)
    /\ valid_word r2 = false /\ taken r2 = AlreadyFound.
Proof.
  destruct (check_twice_counts_once playing "cat"
              {| taken := Accept; valid_word := true; success_count := 3 |}
              eq_refl) as (r2 & Hc & Hv & Hacc & _).
  exists r2. split; [exact Hc|]. split; [exact Hv|]. by apply Hacc.
Defined.

(** After the main page, "dog" is answered and not accepted. *)
Lemma check_after_index_witness :
  exists (j : string) (r : reply),
    jumbled ["act"; "tack"; "cat"] 3 (Some 7) 0 = Ok j
    /\ snd (check "dog" (fst (index 0 playing))) = Ok r
    /\ taken r <> AlreadyFound
    /\ (taken r = Accept <->
          Vocab_has (WORDS playing) "dog" = true
          /\ LetterBag_contains j "dog" = true).
Proof.
  apply (check_after_index_answers playing 0 (render_template "vocab.html")
           "dog").
  reflexivity.
Defined.

(** With a configured count of zero the generator rejects the call, and the
    puzzle in play stays as it was but for the target count. *)
Lemma index_failure_witness :
  snd (index 0 misconfigured) = Raise InvalidArgument
  /\ target_count (flask_session (fst (index 0 misconfigured))) = Some 0
  /\ jumble (flask_session (fst (index 0 misconfigured))) = Some "tack"
  /\ matches (flask_session (fst (index 0 misconfigured))) = Some ["cat"]
  /\ forall text,
       snd (check text (fst (index 0 misconfigured)))
       = snd (check text misconfigured).
Proof.
  apply (index_failure_keeps_old_puzzle misconfigured 0 InvalidArgument).
  reflexivity.
Defined.

(** The failed request gets no response, so the client's session is the one
    it sent; the call of [jumbled] was made all the same. *)
Example failed_index_keeps_the_cookie :
  flask_session (serve [GetIndex 0] misconfigured)
  = flask_session misconfigured
  /\ calls (serve [GetIndex 0] misconfigured) = [index_call misconfigured].
Proof. split; reflexivity. Qed.

(** With the lenient generator and a configured count of zero, the session
    is reset and the request fails on the assertion. *)
Lemma index_asserts_witness :
  snd (index (I := lenient) 0 lenient_zero) = Raise AssertionError
  /\ flask_session (fst (index (I := lenient) 0 lenient_zero))
     = {| target_count := Some 0; jumble := Some ""; matches := Some [] |}.
Proof.
  apply (index_asserts_after_storing (I := lenient) lenient_zero 0 "").
  - reflexivity.
  - discriminate.
Defined.

(** Two requests for the main page among three: two calls, with the seed 7. *)
Lemma jumbled_calls_witness :
  calls (serve [GetIndex 0; GetCheck "cat"; GetIndex 1] started)
  = [index_call started; index_call started]
  /\ call_seed (index_call started) = Some 7.
Proof.
  destruct (jumbled_called_once_per_index (cfg (VStr "7") 3) started
              [GetIndex 0; GetCheck "cat"; GetIndex 1] eq_refl) as [Hc _].
  split; [exact Hc|reflexivity].
Defined.

(** With three words and a configured count of five, the reply reports five
    while the session's target count is three. *)
Definition started_for_five : server :=
  {| CONFIG := cfg (VStr "7") 5; WORDS := three_words; SEED := Some 7;
     flask_session := new_session; calls := [] |}.

Lemma check_reports_five_witness :
  exists r : reply,
    snd (check "cat" (serve [GetIndex 0] started_for_five)) = Ok r
    /\ success_count r = 5
    /\ target_count (flask_session (serve [GetIndex 0] started_for_five))
       = Some 3
    /\ clamped_count started_for_five < success_count r.
Proof.
  exists {| taken := Accept; valid_word := true; success_count := 5 |}.
  split; [reflexivity|].
  destruct (check_reports_configured_count (cfg (VStr "7") 5)
              started_for_five [GetIndex 0] "cat"
              {| taken := Accept; valid_word := true; success_count := 5 |}
              eq_refl eq_refl)
    as (Hc & Ht & _ & Hlt).
  split; [exact Hc|]. split; [exact Ht|]. apply Hlt. reflexivity.
Defined.

(** A missing word file stops start-up with the loader's exception; the
    seed setting [None] stops it with the TypeError of [int]. *)
Lemma startup_failures_witness :
  startup {| VOCAB := "data/missing.txt"; SEED_setting := VStr "7";
             SUCCESS_AT_COUNT := 3 |} = Raise LoadError
  /\ startup (cfg VNone 3) = Raise TypeError.
Proof.
  split.
  - apply (proj2 (startup_failures _ LoadError)). left. reflexivity.
  - apply (proj2 (startup_failures (cfg VNone 3) TypeError)). right.
    split; [reflexivity|]. split; [reflexivity|discriminate].
Defined.

(** Of the attempts dog, cat, act, cat the second and the third are added. *)
Lemma checks_append_witness :
  exists new : list string,
    found (serve (map GetCheck ["dog"; "cat"; "act"; "cat"]) playing)
    = found playing ++ new
    /\ sublist new ["dog"; "cat"; "act"; "cat"].
Proof.
  destruct (checks_append_in_order ["dog"; "cat"; "act"; "cat"] playing)
    as (new & Hf & Hsub & _).
  exists new. split; [exact Hf|exact Hsub].
Defined.

(** The attempt "cat" is answered alike with and without an empty list of
    matches in the session, and whatever the target count. *)
Definition no_matches_yet : server :=
  {| CONFIG := cfg (VStr "7") 3; WORDS := three_words; SEED := Some 7;
     flask_session :=
       {| target_count := None; jumble := Some "tack"; matches := None |};
     calls := [] |}.

Lemma check_reads_witness :
  snd (check "cat" no_matches_yet) = snd (check "cat" playing).
Proof.
  apply (check_reads_jumble_and_matches no_matches_yet playing "cat");
    reflexivity.
Defined.

(** The main page starts the same puzzle on the started server and on the
    one with a puzzle in play. *)
Lemma index_ignores_witness :
  snd (index 0 started) = snd (index 0 playing)
  /\ flask_session (fst (index 0 started))
     = flask_session (fst (index 0 playing)).
Proof.
  destruct (index_ignores_old_session started playing 0 eq_refl eq_refl
              eq_refl) as [Hr Hs].
  split; [exact Hr|]. apply Hs. reflexivity.
Defined.

End Rounds.
